(** * python-bun-plugin: the [python:] resolve/load hook pair

    A shallow embedding of [src/index.ts].  The plugin registers two
    callbacks for the namespace [python]:

    - [onResolve] returns the specifier it was given, tagged [python];
    - [onLoad] strips a leading [python:] with
      [path.replace(/^python:/, "")] and splices the remainder into a
      template literal that imports [pymport] and [proxify] and default
      exports the proxified module.

    JavaScript strings are modelled by [string]: one [ascii] per code
    unit.  Every character the plugin itself inspects or emits is ASCII. *)

From Stdlib Require Import Strings.String Strings.Ascii.
From Stdlib Require Import Arith.PeanoNat NArith.BinNat Bool.Bool.
From Stdlib Require Import Lists.List Lia.
Import ListNotations.

Local Open Scope string_scope.

(** ** Regular expressions, as far as the plugin writes them *)

Module RegExp.

(** The terms occurring in [/^python:/]: the start-of-input assertion and
    literal characters.  The literal carries no flag, so matching is
    case-sensitive, not global, not sticky and not multiline. *)
Inductive term : Type :=
| AssertStart
| Lit (c : ascii).

Definition t : Type := list term.

(** [match_here re idx s] runs the pattern against the input whose
    remaining text is [s] and whose current position is [idx]; on success
    it returns what follows the match.  Without the multiline flag [^]
    succeeds at position 0 only. *)
Fixpoint match_here (re : t) (idx : nat) (s : string) : option string :=
  match re with
  | [] => Some s
  | AssertStart :: re' =>
      if Nat.eqb idx 0 then match_here re' idx s else None
  | Lit c :: re' =>
      match s with
      | EmptyString => None
      | String d s' =>
          if Ascii.eqb c d then match_here re' (S idx) s' else None
      end
  end.

(** [RegExpBuiltinExec] for a pattern that is neither global nor sticky:
    start at [lastIndex = 0] and move right one position at a time until
    a match is found or the end of the input is passed.  The result is
    the text before the match and the text after it. *)
Fixpoint exec_from (re : t) (idx : nat) (s : string)
  : option (string * string) :=
  match match_here re idx s with
  | Some rest => Some (EmptyString, rest)
  | None =>
      match s with
      | EmptyString => None
      | String c s' =>
          match exec_from re (S idx) s' with
          | Some (before, rest) => Some (String c before, rest)
          | None => None
          end
      end
  end.

Definition exec (re : t) (s : string) : option (string * string) :=
  exec_from re 0 s.

(** [String.prototype.replace] with a non-global pattern and a
    replacement text free of [$]: the first match, if any, is replaced;
    otherwise the input is returned as it is. *)
Definition replace (re : t) (replacement : string) (s : string) : string :=
  match exec re s with
  | Some (before, rest) => before ++ replacement ++ rest
  | None => s
  end.

Fixpoint literal (s : string) : t :=
  match s with
  | EmptyString => []
  | String c s' => Lit c :: literal s'
  end.

End RegExp.

(** ** Values, completions and the host *)

(** What a caller can hand to a callback at run time.  Bun's declarations
    type [path] as a string; the type annotation is erased, so the other
    primitives are kept to see where a method call could throw. *)
Inductive value : Type :=
| VUndefined
| VNull
| VBoolean (b : bool)
| VString (s : string).

Inductive error : Type :=
| TypeError.

Inductive completion (A : Type) : Type :=
| Normal (a : A)
| Throw (e : error).
Arguments Normal {A} a.
Arguments Throw {A} e.

(** A JavaScript computation may read and write the state of the runtime
    (clock, random source, module registry, ...) and may throw.  The state
    is kept abstract. *)
Definition JS (Host A : Type) : Type := Host -> completion A * Host.

Definition ret {Host A : Type} (a : A) : JS Host A :=
  fun h => (Normal a, h).

Definition bind {Host A B : Type} (c : JS Host A) (k : A -> JS Host B)
  : JS Host B :=
  fun h =>
    match c h with
    | (Normal a, h') => k a h'
    | (Throw e, h') => (Throw e, h')
    end.

Definition throw {Host A : Type} (e : error) : JS Host A :=
  fun h => (Throw e, h).

Declare Scope js_scope.
Delimit Scope js_scope with js.
Notation "x <- c ;; k" := (bind c (fun x => k))
  (at level 61, c at next level, right associativity) : js_scope.

(** [v.replace(re, replacement)]: reading a property of [undefined] or
    [null] throws, and so does calling the missing [replace] of a
    boolean. *)
Definition call_replace {Host : Type}
  (v : value) (re : RegExp.t) (replacement : string) : JS Host string :=
  match v with
  | VString s => ret (RegExp.replace re replacement s)
  | VUndefined | VNull | VBoolean _ => throw TypeError
  end.

(** ** The plugin *)

Module PythonBunPlugin.

Definition name : string := "Python Bun Plugin".

(** Bun's [Loader] union. *)
Inductive Loader : Type :=
| js | jsx | ts | tsx | json | toml | file | napi | wasm | text.

Definition loader_name (l : Loader) : string :=
  match l with
  | js => "js" | jsx => "jsx" | ts => "ts" | tsx => "tsx"
  | json => "json" | toml => "toml" | file => "file" | napi => "napi"
  | wasm => "wasm" | text => "text"
  end.

(** Loaders whose contents are compiled and run as module code; the
    others turn the contents into a data value or an asset. *)
Definition is_script (l : Loader) : bool :=
  match l with
  | js | jsx | ts | tsx => true
  | json | toml | file | napi | wasm | text => false
  end.

Record OnResolveResult : Type := {
  path : value;
  namespace : string
}.

Record OnLoadResult : Type := {
  contents : string;
  loader : Loader
}.

Definition LF : string := String "010"%char EmptyString.

(** [/^python:/] *)
Definition python_prefix : RegExp.t :=
  RegExp.AssertStart :: RegExp.literal "python:".

(** The template literal of [onLoad], cut at its one substitution. *)
Definition template_head : string :=
  LF ++
  "          import { pymport, proxify } from 'pymport';" ++ LF ++
  LF ++
  "          const module = pymport('".

Definition template_tail : string :=
  "');" ++ LF ++
  "          export default proxify(module);" ++ LF ++
  "        ".

Definition template (substitution : string) : string :=
  template_head ++ substitution ++ template_tail.

(** [({ path }) => ({ path, namespace: "python" })] *)
Definition onResolve {Host : Type} (p : value) : JS Host OnResolveResult :=
  ret {| path := p; namespace := "python" |}.

(** [({ path }) => ({ contents: `...${path.replace(/^python:/, "")}...`,
    loader: "js" })] *)
Definition onLoad {Host : Type} (p : value) : JS Host OnLoadResult :=
  (module_name <- call_replace p python_prefix "" ;;
   ret {| contents := template module_name; loader := js |})%js.

End PythonBunPlugin.

(** ** Vocabulary of the specification *)

Module Spec.

(** [pat] occurs in [s] as a contiguous run of characters. *)
Definition Substring (pat s : string) : Prop :=
  exists before after, s = before ++ pat ++ after.

Fixpoint mem_char (c : ascii) (s : string) : bool :=
  match s with
  | EmptyString => false
  | String d s' => Ascii.eqb c d || mem_char c s'
  end.

(** Number of positions of [s] at which [pat] starts. *)
Fixpoint occurrences (pat s : string) : nat :=
  match s with
  | EmptyString => 0
  | String c s' =>
      (if prefix pat (String c s') then 1 else 0) + occurrences pat s'
  end.

(** The reserved namespace tag followed by its delimiter. *)
Definition tag : string := "python:".

(** The specifier without the tag: the tag is removed from the front,
    once, when the specifier starts with it. *)
Definition strip_tag (p : string) : string :=
  if prefix tag p
  then substring (String.length tag) (String.length p - String.length tag) p
  else p.

(** The shape of a generated module: the import of the two binding
    functions, the bind call on the module name, the default export of
    the wrapped module, and no further [export]. *)
Definition generated_module_contract (m source : string) : Prop :=
  Substring "import { pymport, proxify } from 'pymport';" source /\
  Substring ("pymport('" ++ m ++ "')") source /\
  Substring "export default proxify(module);" source /\
  occurrences "export" source = 1.

Definition to_lower (c : ascii) : ascii :=
  let n := nat_of_ascii c in
  if Nat.leb 65 n && Nat.leb n 90 then ascii_of_nat (n + 32) else c.

Fixpoint lower_case (s : string) : string :=
  match s with
  | EmptyString => EmptyString
  | String c s' => String (to_lower c) (lower_case s')
  end.

(** Two texts that are equal once letter case is ignored, yet are not
    the same text. *)
Definition differs_in_case_only (a b : string) : Prop :=
  lower_case a = lower_case b /\ a <> b.

(** Running a callback twice in a row on the same argument. *)
Definition twice {Host A B : Type} (f : A -> JS Host B) (a : A)
  : JS Host (B * B) :=
  (r1 <- f a ;; r2 <- f a ;; ret (r1, r2))%js.

End Spec.

Import PythonBunPlugin Spec.

(** ** Filters *)

(** The pattern of the registration filters, [/.*/], needs the atom [.]
    and the quantifier [*], which [RegExp] does not have.  What [.]
    refuses depends on code units beyond the ASCII range, so filters run
    on sequences of 16-bit code units. *)
Module Pattern.

Definition code_unit : Type := N.

Definition input : Type := list code_unit.

Inductive atom : Type :=
| Char (u : code_unit)
| Dot.

Inductive term : Type :=
| AssertStart
| One (a : atom)
| Star (a : atom).

Definition t : Type := list term.

(** Line feed, carriage return, line separator (U+2028) and paragraph
    separator (U+2029). *)
Definition line_terminator (u : code_unit) : bool :=
  N.eqb u 10 || N.eqb u 13 || N.eqb u 8232 || N.eqb u 8233.

(** Without the [s] flag, [.] matches every code unit but a line
    terminator. *)
Definition atom_matches (a : atom) (u : code_unit) : bool :=
  match a with
  | Char v => N.eqb v u
  | Dot => negb (line_terminator u)
  end.

(** Backtracking matcher.  [*] is greedy: it takes one more code unit
    when it can and the rest of the pattern then matches, and gives the
    code unit back otherwise. *)
Fixpoint match_here (re : t) (idx : nat) (s : input) : option input :=
  match re with
  | [] => Some s
  | AssertStart :: re' =>
      if Nat.eqb idx 0 then match_here re' idx s else None
  | One a :: re' =>
      match s with
      | [] => None
      | u :: s' =>
          if atom_matches a u then match_here re' (S idx) s' else None
      end
  | Star a :: re' =>
      (fix star (idx : nat) (s : input) {struct s} : option input :=
         match s with
         | [] => match_here re' idx s
         | u :: s' =>
             if atom_matches a u
             then match star (S idx) s' with
                  | Some rest => Some rest
                  | None => match_here re' idx s
                  end
             else match_here re' idx s
         end) idx s
  end.

Fixpoint exec_from (re : t) (idx : nat) (s : input)
  : option (input * input) :=
  match match_here re idx s with
  | Some rest => Some ([], rest)
  | None =>
      match s with
      | [] => None
      | u :: s' =>
          match exec_from re (S idx) s' with
          | Some (before, rest) => Some (u :: before, rest)
          | None => None
          end
      end
  end.

Definition exec (re : t) (s : input) : option (input * input) :=
  exec_from re 0 s.

(** [re.test(s)] *)
Definition test (re : t) (s : input) : bool :=
  match exec re s with
  | Some _ => true
  | None => false
  end.

End Pattern.

(** [/.*/] *)
Definition any_path : Pattern.t := [Pattern.Star Pattern.Dot].

(** ** A runtime with a clock, a random source and a counter *)

(** The state a callback could draw on to make two calls differ. *)
Module Runtime.

Record t : Type := {
  clock : N;
  entropy : N;
  counter : N
}.

(** [Date.now()] *)
Definition Date_now : JS t N :=
  fun h => (Normal (clock h), h).

(** [Math.random()]: the draw is the state of the generator, which moves
    on. *)
Definition Math_random : JS t N :=
  fun h =>
    (Normal (entropy h),
     {| clock := clock h; entropy := N.succ (entropy h);
        counter := counter h |}).

(** [counter++] on a variable that outlives the call. *)
Definition next_count : JS t N :=
  fun h =>
    (Normal (counter h),
     {| clock := clock h; entropy := entropy h;
        counter := N.succ (counter h) |}).

(** Not the plugin's: a load callback that marks its result with a number
    drawn from [source], kept for comparison with [onLoad]. *)
Definition stamped (source : JS t N) (p : value)
  : JS t (N * OnLoadResult) :=
  (n <- source ;; r <- onLoad p ;; ret (n, r))%js.

End Runtime.

(** ** The syntax of generated modules *)

(** A recogniser for the part of ECMAScript's module grammar that the
    generated text is written in: import declarations with named
    specifiers, [const] declarations, [export default], and expression
    statements, over identifiers, single-quoted literals, calls and [+].
    It accepts only well-formed modules; what lies outside that part is
    refused. *)
Module Syntax.

Inductive token : Type :=
| Ident (x : string)
| Str (body : string)
| Punct (c : ascii).

Inductive lex_error : Type :=
| UnterminatedString
| Unsupported (c : ascii).

Definition in_range (lo hi : nat) (c : ascii) : bool :=
  Nat.leb lo (nat_of_ascii c) && Nat.leb (nat_of_ascii c) hi.

Definition is_space (c : ascii) : bool :=
  Ascii.eqb c " " || Ascii.eqb c "009" || Ascii.eqb c "010"
  || Ascii.eqb c "013".

Definition is_ident_start (c : ascii) : bool :=
  in_range 97 122 c || in_range 65 90 c || Ascii.eqb c "_"
  || Ascii.eqb c "$".

Definition is_ident_part (c : ascii) : bool :=
  is_ident_start c || in_range 48 57 c.

Definition is_punct (c : ascii) : bool :=
  existsb (Ascii.eqb c) ["{"; "}"; "("; ")"; ","; ";"; "="; "+"]%char.

Inductive lex_state : Type :=
| Code
| InIdent (x : string)
| InStr (body : string).

Definition push (tok : token) (r : lex_error + list token)
  : lex_error + list token :=
  match r with
  | inl e => inl e
  | inr toks => inr (tok :: toks)
  end.

Definition snoc (s : string) (c : ascii) : string :=
  s ++ String c EmptyString.

Definition code_step
  (continue : lex_state -> string -> lex_error + list token)
  (c : ascii) (s' : string) : lex_error + list token :=
  if is_space c then continue Code s'
  else if is_punct c then push (Punct c) (continue Code s')
  else if Ascii.eqb c "'" then continue (InStr EmptyString) s'
  else if is_ident_start c then continue (InIdent (String c EmptyString)) s'
  else inl (Unsupported c).

(** A single-quoted literal runs to the next quote and may not hold a
    line break; escapes are outside the part recognised. *)
Fixpoint lex (st : lex_state) (s : string) : lex_error + list token :=
  match s with
  | EmptyString =>
      match st with
      | Code => inr []
      | InIdent x => inr [Ident x]
      | InStr _ => inl UnterminatedString
      end
  | String c s' =>
      match st with
      | Code => code_step lex c s'
      | InIdent x =>
          if is_ident_part c then lex (InIdent (snoc x c)) s'
          else push (Ident x) (code_step lex c s')
      | InStr body =>
          if Ascii.eqb c "'" then push (Str body) (lex Code s')
          else if Ascii.eqb c "010" || Ascii.eqb c "013"
               then inl UnterminatedString
          else if Ascii.eqb c "\" then inl (Unsupported c)
          else lex (InStr (snoc body c)) s'
      end
  end.

(** Reserved words of module code. *)
Definition reserved : list string :=
  ["await"; "break"; "case"; "catch"; "class"; "const"; "continue";
   "debugger"; "default"; "delete"; "do"; "else"; "enum"; "export";
   "extends"; "false"; "finally"; "for"; "function"; "if";
   "implements"; "import"; "in"; "instanceof"; "interface"; "let";
   "new"; "null"; "package"; "private"; "protected"; "public";
   "return"; "static"; "super"; "switch"; "this"; "throw"; "true";
   "try"; "typeof"; "var"; "void"; "while"; "with"; "yield"].

Definition is_reserved (x : string) : bool :=
  existsb (String.eqb x) reserved.

(** Names a declaration may bind in strict code. *)
Definition binding_name (x : string) : bool :=
  negb (is_reserved x) && negb (String.eqb x "eval")
  && negb (String.eqb x "arguments").

(** Enough steps for any phrase made of [toks]. *)
Definition fuel_for (toks : list token) : nat := 3 * length toks + 3.

Definition is_punct_tok (c : ascii) (tok : token) : bool :=
  match tok with
  | Punct d => Ascii.eqb c d
  | Ident _ | Str _ => false
  end.

Definition is_word (w : string) (tok : token) : bool :=
  match tok with
  | Ident x => String.eqb w x
  | Str _ | Punct _ => false
  end.

(** Expect one punctuator at the head of what remains. *)
Definition expect (c : ascii) (r : option (list token))
  : option (list token) :=
  match r with
  | Some (tok :: toks) => if is_punct_tok c tok then Some toks else None
  | Some [] | None => None
  end.

Inductive nonterminal : Type :=
| Expression     (* Term { + Term } *)
| Term           (* literal, identifier, or call *)
| Arguments.     (* Expression { , Expression } *)

(** Recursive descent; the result is what follows the phrase. *)
Fixpoint parse (fuel : nat) (nt : nonterminal) (toks : list token)
  : option (list token) :=
  match fuel with
  | O => None
  | S fuel' =>
      match nt with
      | Term =>
          match toks with
          | Str _ :: rest => Some rest
          | Ident x :: rest =>
              if is_reserved x then None
              else match rest with
                   | Punct c :: Punct d :: rest' =>
                       if Ascii.eqb c "(" then
                         if Ascii.eqb d ")" then Some rest'
                         else expect ")" (parse fuel' Arguments
                                            (Punct d :: rest'))
                       else Some rest
                   | Punct c :: rest' =>
                       if Ascii.eqb c "("
                       then expect ")" (parse fuel' Arguments rest')
                       else Some rest
                   | _ => Some rest
                   end
          | Punct _ :: _ | [] => None
          end
      | Expression =>
          match parse fuel' Term toks with
          | Some (tok :: rest) =>
              if is_punct_tok "+" tok then parse fuel' Expression rest
              else Some (tok :: rest)
          | other => other
          end
      | Arguments =>
          match parse fuel' Expression toks with
          | Some (tok :: rest) =>
              if is_punct_tok "," tok then parse fuel' Arguments rest
              else Some (tok :: rest)
          | other => other
          end
      end
  end.

(** [x , y , z }]: the names and what follows the brace. *)
Fixpoint specifiers (toks : list token)
  : option (list string * list token) :=
  match toks with
  | Ident x :: Punct c :: rest =>
      if Ascii.eqb c "}" then Some ([x], rest)
      else if Ascii.eqb c "," then
        match specifiers rest with
        | Some (xs, rest') => Some (x :: xs, rest')
        | None => None
        end
      else None
  | _ => None
  end.

Fixpoint distinct (xs : list string) : bool :=
  match xs with
  | [] => true
  | x :: xs' => negb (existsb (String.eqb x) xs') && distinct xs'
  end.

(** The items of a module, with the names bound so far and whether a
    default export was seen: no name is declared twice and there is at
    most one default export. *)
Fixpoint items (fuel : nat) (bound : list string) (has_default : bool)
  (toks : list token) : bool :=
  match fuel with
  | O => false
  | S fuel' =>
      match toks with
      | [] => true
      | Ident w :: rest =>
          if String.eqb w "import" then
            match rest with
            | Punct c :: rest1 =>
                match specifiers rest1 with
                | Some (xs, from :: Str _ :: semi :: rest2) =>
                    Ascii.eqb c "{" && is_word "from" from
                    && is_punct_tok ";" semi
                    && forallb binding_name xs
                    && distinct (xs ++ bound)
                    && items fuel' (xs ++ bound) has_default rest2
                | _ => false
                end
            | _ => false
            end
          else if String.eqb w "const" then
            match rest with
            | Ident x :: eq :: rest1 =>
                match expect ";" (parse (fuel_for rest1) Expression rest1)
                with
                | Some rest2 =>
                    is_punct_tok "=" eq && binding_name x
                    && distinct (x :: bound)
                    && items fuel' (x :: bound) has_default rest2
                | None => false
                end
            | _ => false
            end
          else if String.eqb w "export" then
            match rest with
            | dflt :: rest1 =>
                match expect ";" (parse (fuel_for rest1) Expression rest1)
                with
                | Some rest2 =>
                    is_word "default" dflt && negb has_default
                    && items fuel' bound true rest2
                | None => false
                end
            | [] => false
            end
          else
            match expect ";" (parse (fuel_for toks) Expression toks) with
            | Some rest2 => items fuel' bound has_default rest2
            | None => false
            end
      | _ =>
          match expect ";" (parse (fuel_for toks) Expression toks) with
          | Some rest2 => items fuel' bound has_default rest2
          | None => false
          end
      end
  end.

Definition well_formed_module (source : string) : bool :=
  match lex Code source with
  | inr toks => items (fuel_for toks) [] false toks
  | inl _ => false
  end.

End Syntax.

(** * Properties *)

(** ** Strings *)

Lemma append_assoc (a b c : string) : (a ++ b) ++ c = a ++ (b ++ c).
Proof.
  induction a as [|x a IH]; simpl; [reflexivity | now rewrite IH].
Qed.

Lemma append_empty_r (a : string) : a ++ "" = a.
Proof.
  induction a as [|x a IH]; simpl; [reflexivity | now rewrite IH].
Qed.

Lemma append_length (a b : string) :
  String.length (a ++ b) = String.length a + String.length b.
Proof.
  induction a as [|x a IH]; simpl; [reflexivity | now rewrite IH].
Qed.

Lemma append_inv_head (a b x y : string) :
  String.length a = String.length b -> a ++ x = b ++ y -> a = b /\ x = y.
Proof.
  revert b; induction a as [|c a IH]; intros [|d b] Hlen Heq;
    simpl in *; try discriminate.
  - now split.
  - injection Heq as Hc Hrest. injection Hlen as Hlen.
    destruct (IH b Hlen Hrest) as [-> ->]. now subst.
Qed.

Lemma substring_whole (s : string) : substring 0 (String.length s) s = s.
Proof.
  induction s as [|c s IH]; simpl; [reflexivity | now rewrite IH].
Qed.

Lemma substring_skip (a r : string) (n : nat) :
  substring (String.length a) n (a ++ r) = substring 0 n r.
Proof.
  induction a as [|c a IH]; simpl; [reflexivity | exact IH].
Qed.

Lemma prefix_append (pre r : string) : prefix pre (pre ++ r) = true.
Proof.
  induction pre as [|c pre IH]; simpl.
  - now destruct r.
  - destruct (ascii_dec c c) as [_|Hne]; [exact IH | now elim Hne].
Qed.

Lemma prefix_inv (pre s : string) :
  prefix pre s = true -> exists r, s = pre ++ r.
Proof.
  revert s; induction pre as [|c pre IH]; intros s H.
  - now exists s.
  - destruct s as [|d s]; simpl in H; [discriminate|].
    destruct (ascii_dec c d) as [->|_]; [|discriminate].
    destruct (IH s H) as [r ->]. now exists r.
Qed.

Lemma prefix_false_not_append (pre s r : string) :
  prefix pre s = false -> s <> pre ++ r.
Proof.
  intros H ->. rewrite prefix_append in H. discriminate.
Qed.

(** ** The specification's stripping *)

Lemma strip_tag_hit (r : string) : strip_tag (tag ++ r) = r.
Proof.
  unfold strip_tag. rewrite prefix_append, substring_skip.
  rewrite append_length, Nat.add_comm, Nat.add_sub.
  apply substring_whole.
Qed.

Lemma strip_tag_miss (p : string) : prefix tag p = false -> strip_tag p = p.
Proof.
  unfold strip_tag. now intros ->.
Qed.

(** ** Anchored literal patterns *)

Section AnchoredLiteral.

Variable pre : string.

Lemma match_here_literal_append (idx : nat) (r : string) :
  RegExp.match_here (RegExp.literal pre) idx (pre ++ r) = Some r.
Proof.
  revert idx.
  induction pre as [|c q IH]; intros idx; simpl; [reflexivity|].
  rewrite Ascii.eqb_refl. apply IH.
Qed.

Lemma match_here_literal_inv (idx : nat) (s r : string) :
  RegExp.match_here (RegExp.literal pre) idx s = Some r -> s = pre ++ r.
Proof.
  revert idx s.
  induction pre as [|c q IH]; intros idx s H; simpl in *.
  - now injection H.
  - destruct s as [|d s]; [discriminate|].
    destruct (Ascii.eqb_spec c d) as [->|_]; [|discriminate].
    now rewrite (IH _ _ H).
Qed.

(** Past position 0 the start assertion fails, whatever follows it. *)
Lemma exec_from_anchored_late (re : RegExp.t) (idx : nat) (s : string) :
  RegExp.exec_from (RegExp.AssertStart :: re) (S idx) s = None.
Proof.
  revert idx; induction s as [|c s IH]; intros idx; simpl.
  - reflexivity.
  - now rewrite IH.
Qed.

Lemma exec_anchored (re : RegExp.t) (s : string) :
  RegExp.exec (RegExp.AssertStart :: re) s =
  match RegExp.match_here re 0 s with
  | Some rest => Some ("", rest)
  | None => None
  end.
Proof.
  unfold RegExp.exec. destruct s as [|c s]; simpl.
  - now destruct (RegExp.match_here re 0 "").
  - destruct (RegExp.match_here re 0 (String c s)); [reflexivity|].
    now rewrite exec_from_anchored_late.
Qed.

Lemma replace_anchored_hit (replacement r : string) :
  RegExp.replace (RegExp.AssertStart :: RegExp.literal pre)
    replacement (pre ++ r) = replacement ++ r.
Proof.
  unfold RegExp.replace.
  now rewrite exec_anchored, match_here_literal_append.
Qed.

Lemma replace_anchored_miss (replacement s : string) :
  (forall r, s <> pre ++ r) ->
  RegExp.replace (RegExp.AssertStart :: RegExp.literal pre)
    replacement s = s.
Proof.
  intros Hmiss. unfold RegExp.replace.
  rewrite exec_anchored.
  destruct (RegExp.match_here (RegExp.literal pre) 0 s) as [r|] eqn:E;
    [|reflexivity].
  apply match_here_literal_inv in E. now elim (Hmiss r).
Qed.

End AnchoredLiteral.

(** [path.replace(/^python:/, "")] is the specification's stripping. *)
Lemma replace_python_prefix (p : string) :
  RegExp.replace python_prefix "" p = strip_tag p.
Proof.
  unfold python_prefix.
  destruct (prefix tag p) eqn:E.
  - destruct (prefix_inv _ _ E) as [r ->].
    rewrite strip_tag_hit. apply (replace_anchored_hit "python:" "" r).
  - rewrite strip_tag_miss by exact E.
    apply replace_anchored_miss.
    intros r. now apply prefix_false_not_append.
Qed.

(** ** The callbacks on strings *)

Lemma onLoad_string (Host : Type) (h : Host) (p : string) :
  onLoad (VString p) h =
  (Normal {| contents := template (strip_tag p); loader := js |}, h).
Proof.
  unfold onLoad, bind, call_replace, ret.
  now rewrite replace_python_prefix.
Qed.

Lemma onLoad_tagged (Host : Type) (h : Host) (m : string) :
  onLoad (VString ("python:" ++ m)) h =
  (Normal {| contents := template m; loader := js |}, h).
Proof.
  rewrite onLoad_string.
  change ("python:" ++ m) with (tag ++ m). now rewrite strip_tag_hit.
Qed.

(** The error branch of the model is live: it is taken when the argument
    is not a string. *)
Lemma onLoad_undefined (Host : Type) (h : Host) :
  onLoad VUndefined h = (Throw TypeError, h).
Proof. reflexivity. Qed.

(** ** Counting occurrences *)

Lemma prefix_skip_char (pat a b : string) (q : ascii) :
  mem_char q pat = false ->
  prefix pat (a ++ String q b) = prefix pat a.
Proof.
  revert a; induction pat as [|c pat IH]; intros a Hq.
  - now destruct a.
  - simpl in Hq. apply orb_false_elim in Hq as [Hc Hpat].
    destruct a as [|d a]; simpl.
    + destruct (ascii_dec c q) as [->|_]; [|reflexivity].
      now rewrite Ascii.eqb_refl in Hc.
    + destruct (ascii_dec c d); [now apply IH | reflexivity].
Qed.

Lemma occurrences_append_char (pat a b : string) (q : ascii) :
  mem_char q pat = false ->
  occurrences pat (a ++ String q b) =
  occurrences pat a + occurrences pat (String q b).
Proof.
  intros Hq. induction a as [|c a IH]; [reflexivity|].
  change (String c a ++ String q b) with (String c (a ++ String q b)).
  cbn [occurrences]. rewrite IH.
  change (String c (a ++ String q b)) with (String c a ++ String q b).
  rewrite (prefix_skip_char pat (String c a) b q Hq).
  cbn [occurrences]. lia.
Qed.

Lemma occurrences_cons_miss (c q : ascii) (pat b : string) :
  mem_char q (String c pat) = false ->
  occurrences (String c pat) (String q b) = occurrences (String c pat) b.
Proof.
  intros Hq. simpl in Hq. apply orb_false_elim in Hq as [Hc _].
  cbn [occurrences prefix].
  destruct (ascii_dec c q) as [->|_]; [|reflexivity].
  now rewrite Ascii.eqb_refl in Hc.
Qed.

(** A pattern free of the quote character cannot straddle the quotes
    around the substitution. *)
Lemma occurrences_quoted (c q : ascii) (pat a m b : string) :
  mem_char q (String c pat) = false ->
  occurrences (String c pat) (a ++ String q (m ++ String q b)) =
  occurrences (String c pat) a + occurrences (String c pat) m
  + occurrences (String c pat) (String q b).
Proof.
  intros Hq.
  rewrite occurrences_append_char by exact Hq.
  rewrite occurrences_cons_miss by exact Hq.
  rewrite occurrences_append_char by exact Hq.
  lia.
Qed.

(** ** The template *)

Lemma template_imports (m : string) :
  Substring "import { pymport, proxify } from 'pymport';" (template m).
Proof.
  exists (LF ++ "          ").
  exists (LF ++ LF ++ "          const module = pymport('" ++ m
          ++ template_tail).
  reflexivity.
Qed.

Lemma template_binds (m : string) :
  Substring ("pymport('" ++ m ++ "')") (template m).
Proof.
  exists (LF ++ "          import { pymport, proxify } from 'pymport';"
          ++ LF ++ LF ++ "          const module = ").
  exists (";" ++ LF ++ "          export default proxify(module);" ++ LF
          ++ "        ").
  unfold template, template_head. cbn [append LF].
  now rewrite append_assoc.
Qed.

Lemma template_exports_default (m : string) :
  Substring "export default proxify(module);" (template m).
Proof.
  exists (template_head ++ m ++ "');" ++ LF ++ "          ").
  exists (LF ++ "        ").
  unfold template. now rewrite !append_assoc.
Qed.

Lemma template_export_count (m : string) :
  occurrences "export" (template m) = S (occurrences "export" m).
Proof.
  pose (a := substring 0 (String.length template_head - 1) template_head).
  pose (b := substring 1 (String.length template_tail - 1) template_tail).
  change (template m) with (a ++ String "'" (m ++ String "'" b)).
  rewrite occurrences_quoted by reflexivity.
  replace (occurrences "export" a) with 0 by (now vm_compute).
  replace (occurrences "export" (String "'" b)) with 1 by (now vm_compute).
  lia.
Qed.

(** ** Letter case *)

Lemma lower_case_length (s : string) :
  String.length (lower_case s) = String.length s.
Proof.
  induction s as [|c s IH]; simpl; [reflexivity | now rewrite IH].
Qed.

Lemma case_variant_not_prefix (t rest : string) :
  differs_in_case_only t tag -> prefix tag (t ++ rest) = false.
Proof.
  intros [Hlow Hne].
  destruct (prefix tag (t ++ rest)) eqn:E; [|reflexivity].
  destruct (prefix_inv _ _ E) as [r Hr].
  apply append_inv_head in Hr as [Ht _]; [contradiction|].
  rewrite <- (lower_case_length t), Hlow. apply lower_case_length.
Qed.

(** * The claims *)

(** C2. For every specifier [s] handed to the resolve callback of the
    [python] namespace, the callback returns normally a record whose path
    is [s] itself and whose namespace is ["python"]; it consults nothing
    else, so it cannot fail and validates nothing. *)
Theorem resolve_identity_with_tag (Host : Type) (h : Host) (s : string) :
  onResolve (VString s) h =
  (Normal {| path := VString s; namespace := "python" |}, h).
Proof. reflexivity. Qed.

(** C3. The module name that the load callback splices into the bind call
    is the path with ["python:"] removed from its front, once, when the path
    starts with it: a path ["python:python:..."] loses the first prefix
    only, and a path that does not start with ["python:"] is spliced in
    whole. *)
Theorem load_strips_tag_once (Host : Type) (h : Host) (p : string) :
  onLoad (VString p) h =
    (Normal {| contents := template (strip_tag p); loader := js |}, h)
  /\ (if prefix "python:" p
      then p = "python:" ++ strip_tag p
      else strip_tag p = p)
  /\ (forall r,
        onLoad (VString ("python:python:" ++ r)) h =
        (Normal {| contents := template ("python:" ++ r); loader := js |}, h)).
Proof.
  split; [apply onLoad_string|]. split.
  - change "python:" with tag.
    destruct (prefix tag p) eqn:E.
    + destruct (prefix_inv _ _ E) as [r ->]. now rewrite strip_tag_hit.
    + now apply strip_tag_miss.
  - intros r. apply (onLoad_tagged Host h ("python:" ++ r)).
Qed.

(** Callbacks that draw on the runtime do differ from call to call: one
    that numbers its results returns two different results when called
    twice, one that reads the clock follows the clock, and one that draws
    a random number moves the generator on. *)
Lemma stamped_callbacks_differ (p : string) (h : Runtime.t) :
  (exists a b,
      fst (twice (Runtime.stamped Runtime.next_count) (VString p) h)
      = Normal (a, b) /\ a <> b)
  /\ (forall h', Runtime.clock h <> Runtime.clock h' ->
        fst (Runtime.stamped Runtime.Date_now (VString p) h)
        <> fst (Runtime.stamped Runtime.Date_now (VString p) h'))
  /\ snd (Runtime.stamped Runtime.Math_random (VString p) h) <> h.
Proof.
  unfold twice, Runtime.stamped, bind, Runtime.next_count,
    Runtime.Date_now, Runtime.Math_random.
  rewrite !onLoad_string. cbn [fst snd ret].
  split; [|split].
  - do 2 eexists. split; [reflexivity|].
    intros E. injection E as E. cbn [Runtime.counter] in E. lia.
  - intros h' Hclock E. injection E as E. contradiction.
  - destruct h as [c e n]. cbn. intros E. injection E as E. lia.
Qed.


(** C5. For the specifier ["python:foo.bar"] the bind call receives
    ["foo.bar"]; more generally whatever follows the first ["python:"] is
    passed on as it is, dots included. *)
Theorem load_roundtrip_dotted (Host : Type) (h : Host) :
  onLoad (VString "python:foo.bar") h =
    (Normal {| contents := template "foo.bar"; loader := js |}, h)
  /\ Substring "pymport('foo.bar')" (template "foo.bar")
  /\ (forall m, RegExp.replace python_prefix "" ("python:" ++ m) = m)
  /\ (forall a b,
        onLoad (VString ("python:" ++ a ++ "." ++ b)) h =
        (Normal {| contents := template (a ++ "." ++ b); loader := js |}, h)).
Proof.
  split; [apply (onLoad_tagged Host h "foo.bar")|].
  split; [apply (template_binds "foo.bar")|].
  split.
  - intros m. apply (replace_anchored_hit "python:" "" m).
  - intros a b. apply onLoad_tagged.
Qed.

(** C6. The specifier ["python:"], with nothing after the tag, is not
    rejected: the load callback returns normally and the generated text
    calls [pymport('')]. *)
Theorem load_empty_remainder (Host : Type) (h : Host) :
  onLoad (VString "python:") h =
    (Normal {| contents := template ""; loader := js |}, h)
  /\ Substring "pymport('')" (template "").
Proof.
  split; [apply (onLoad_tagged Host h "") | apply (template_binds "")].
Qed.

(** C7, as amended.  The load callback escapes nothing: for every path
    the generated text is the template's fixed head, the stripped module
    name exactly as given, and the template's fixed tail; a quote character
    inside the name reaches the text as it is.  Such a quote can break the
    syntax of the generated module, as in ["python:a'b"], where a string
    literal is left open at the end of its line, but it need not: the text
    for ["python:a'+'b"] is a well-formed module. *)
Theorem load_no_escaping (Host : Type) (h : Host) (p : string) :
  onLoad (VString p) h =
    (Normal {| contents := template_head ++ strip_tag p ++ template_tail;
               loader := js |}, h)
  /\ Substring ("pymport('" ++ strip_tag p ++ "')")
       (template_head ++ strip_tag p ++ template_tail)
  /\ (forall a b,
        onLoad (VString ("python:" ++ a ++ "'" ++ b)) h =
        (Normal {| contents := template_head ++ (a ++ "'" ++ b)
                               ++ template_tail;
                   loader := js |}, h))
  /\ Syntax.lex Syntax.Code (template_head ++ "a'b" ++ template_tail)
     = inl Syntax.UnterminatedString
  /\ Syntax.well_formed_module (template_head ++ "a'+'b" ++ template_tail)
     = true.
Proof.
  split; [apply onLoad_string|].
  split; [apply template_binds|].
  split; [intros a b; apply onLoad_tagged|].
  split; now vm_compute.
Qed.

(** C7, as stated, fails: the name [a'+'b] holds a quote and is spliced in
    as it is, yet the generated module is well formed, its bind call being
    [pymport('a'+'b')]. *)
Lemma load_no_escaping_counterexample :
  mem_char "'" "a'+'b" = true
  /\ onLoad (VString "python:a'+'b") tt =
       (Normal {| contents := template "a'+'b"; loader := js |}, tt)
  /\ Substring "pymport('a'+'b')" (template "a'+'b")
  /\ Syntax.well_formed_module (template "a'+'b") = true.
Proof.
  split; [reflexivity|].
  split; [apply (onLoad_tagged unit tt "a'+'b")|].
  split; [apply (template_binds "a'+'b") | now vm_compute].
Qed.

(** C8. For every path the record returned by the load callback carries
    the loader ["js"], a loader of executable script and not of data. *)
Theorem load_loader_is_js (Host : Type) (h : Host) (p : string) :
  exists r : OnLoadResult,
    onLoad (VString p) h = (Normal r, h)
    /\ loader r = js
    /\ loader_name (loader r) = "js"
    /\ is_script (loader r) = true.
Proof.
  eexists. split; [apply onLoad_string|]. now repeat split.
Qed.

(** C9. Both callbacks are total on strings: for every string, the empty
    one and those not starting with ["python:"] included, each returns
    normally and never throws. *)
Theorem hooks_total_on_strings (Host : Type) (h : Host) (p : string) :
  (exists r, onResolve (VString p) h = (Normal r, h))
  /\ (exists r, onLoad (VString p) h = (Normal r, h))
  /\ (forall e h', onResolve (VString p) h <> (Throw e, h'))
  /\ (forall e h', onLoad (VString p) h <> (Throw e, h'))
  /\ onLoad (VString "") h =
       (Normal {| contents := template ""; loader := js |}, h).
Proof.
  split; [eexists; reflexivity|].
  split; [eexists; apply onLoad_string|].
  split; [intros e h'; discriminate|].
  split; [intros e h'; rewrite onLoad_string; discriminate|].
  apply onLoad_string.
Qed.

(** C10. Matching the prefix is case-sensitive: when the front of the path
    differs from ["python:"] in letter case only, as in ["Python:numpy"],
    nothing is stripped and the whole path becomes the argument of the bind
    call. *)
Theorem load_prefix_case_sensitive
  (Host : Type) (h : Host) (t rest : string) :
  differs_in_case_only t "python:" ->
  onLoad (VString (t ++ rest)) h =
    (Normal {| contents := template (t ++ rest); loader := js |}, h)
  /\ Substring ("pymport('" ++ (t ++ rest) ++ "')") (template (t ++ rest)).
Proof.
  intros Hcase. split; [|apply template_binds].
  rewrite onLoad_string, strip_tag_miss; [reflexivity|].
  now apply case_variant_not_prefix.
Qed.

Lemma load_prefix_case_sensitive_witness :
  differs_in_case_only "Python:" "python:"
  /\ onLoad (VString "Python:numpy") tt =
       (Normal {| contents := template "Python:numpy"; loader := js |}, tt).
Proof.
  assert (H : differs_in_case_only "Python:" "python:")
    by (split; [reflexivity | discriminate]).
  split; [exact H|].
  exact (proj1 (load_prefix_case_sensitive unit tt "Python:" "numpy" H)).
Defined.

(** C1, as amended.  For every module name [m] free of [":"], loading
    ["python:" ++ m] yields the template around [m]: the text imports
    [pymport] and [proxify] from ['pymport'], contains [pymport('m')] with
    [m] as given, and contains the default export of [proxify(module)];
    outside [m] that is its only [export], so the text has one occurrence
    of [export] more than [m] has. *)
Theorem load_generated_module (Host : Type) (h : Host) (m : string) :
  mem_char ":" m = false ->
  onLoad (VString ("python:" ++ m)) h =
    (Normal {| contents := template m; loader := js |}, h)
  /\ Substring "import { pymport, proxify } from 'pymport';" (template m)
  /\ Substring ("pymport('" ++ m ++ "')") (template m)
  /\ Substring "export default proxify(module);" (template m)
  /\ occurrences "export" (template m) = S (occurrences "export" m).
Proof.
  intros _.
  split; [apply onLoad_tagged|].
  split; [apply template_imports|].
  split; [apply template_binds|].
  split; [apply template_exports_default | apply template_export_count].
Qed.

Lemma load_generated_module_witness :
  mem_char ":" "numpy" = false
  /\ generated_module_contract "numpy" (template "numpy").
Proof.
  assert (H : mem_char ":" "numpy" = false) by reflexivity.
  split; [exact H|].
  destruct (load_generated_module unit tt "numpy" H)
    as (_ & Himport & Hbind & Hexport & Hcount).
  repeat split; assumption.
Defined.

(** C1, as stated, fails: a module name without [":"] that closes the
    string literal and carries an [export] of its own yields a text with a
    second export. *)
Lemma load_generated_module_counterexample :
  mem_char ":" "x');export const y=1;//" = false
  /\ onLoad (VString "python:x');export const y=1;//") tt =
       (Normal {| contents := template "x');export const y=1;//";
                  loader := js |}, tt)
  /\ Substring "export const y=1;" (template "x');export const y=1;//")
  /\ occurrences "export" (template "x');export const y=1;//") = 2
  /\ ~ generated_module_contract "x');export const y=1;//"
         (template "x');export const y=1;//").
Proof.
  split; [reflexivity|].
  split; [apply (onLoad_tagged unit tt "x');export const y=1;//")|].
  split.
  { exists (template_head ++ "x');"), ("//" ++ template_tail). reflexivity. }
  split; [now vm_compute|].
  intros (_ & _ & _ & Hcount). vm_compute in Hcount. discriminate.
Qed.

(** * Beyond the claims *)

(** ** Strings, continued *)

Lemma append_inv_tail (a b t : string) : a ++ t = b ++ t -> a = b.
Proof.
  intros H.
  assert (Hlen : String.length a = String.length b).
  { apply (f_equal String.length) in H. rewrite !append_length in H. lia. }
  now destruct (append_inv_head a b t t Hlen H).
Qed.

Lemma template_injective (m1 m2 : string) :
  template m1 = template m2 -> m1 = m2.
Proof.
  unfold template. intros H.
  apply append_inv_head in H as [_ H]; [|reflexivity].
  now apply append_inv_tail in H.
Qed.

Lemma strip_tag_cases (p : string) :
  (prefix tag p = true /\ p = tag ++ strip_tag p)
  \/ (prefix tag p = false /\ strip_tag p = p).
Proof.
  destruct (prefix tag p) eqn:E; [left | right]; split; try reflexivity.
  - destruct (prefix_inv _ _ E) as [r ->]. now rewrite strip_tag_hit.
  - now apply strip_tag_miss.
Qed.

(** ** The filter [/.*/] *)

(** At any position [.*] matches: it takes the code units up to the first
    line terminator and leaves the rest. *)
Lemma any_path_match_here (s : Pattern.input) (idx : nat) :
  exists line rest : Pattern.input,
    s = (line ++ rest)%list
    /\ Pattern.match_here any_path idx s = Some rest
    /\ Forall (fun u => Pattern.line_terminator u = false) line
    /\ (rest = []
        \/ exists u r, rest = u :: r /\ Pattern.line_terminator u = true).
Proof.
  revert idx; induction s as [|u s IH]; intros idx.
  - exists [], []. repeat split; [constructor | now left].
  - cbn [any_path Pattern.match_here Pattern.atom_matches].
    destruct (Pattern.line_terminator u) eqn:Eu; cbn [negb].
    + exists [], (u :: s). repeat split; [constructor|].
      right. now exists u, s.
    + destruct (IH (S idx)) as (line & rest & -> & Hm & Hline & Hrest).
      exists (u :: line), rest.
      cbn [any_path Pattern.match_here Pattern.atom_matches] in Hm.
      rewrite Hm. repeat split; [|exact Hrest].
      now constructor.
Qed.

Lemma any_path_exec (s : Pattern.input) :
  exists rest, Pattern.exec any_path s = Some ([], rest)
               /\ Pattern.match_here any_path 0 s = Some rest.
Proof.
  destruct (any_path_match_here s 0) as (line & rest & _ & Hm & _).
  exists rest. split; [|exact Hm].
  unfold Pattern.exec. destruct s as [|u s]; cbn [Pattern.exec_from];
    now rewrite Hm.
Qed.

(** ** Further properties *)

(** X2. Two paths load to the same result exactly when they are the same
    path or one is the other with ["python:"] in front, the other not
    starting with ["python:"] itself.  In particular distinct module names
    under the tag never share a generated text. *)
Theorem load_same_result_iff (Host : Type) (h : Host) (p1 p2 : string) :
  onLoad (VString p1) h = onLoad (VString p2) h
  <-> (p1 = p2
       \/ (p1 = "python:" ++ p2 /\ prefix "python:" p2 = false)
       \/ (p2 = "python:" ++ p1 /\ prefix "python:" p1 = false)).
Proof.
  rewrite !onLoad_string. change "python:" with tag. split.
  - intros H.
    apply (f_equal (fun x => match fst x with
                             | Normal r => contents r
                             | Throw _ => ""
                             end)) in H.
    cbn [fst contents] in H. apply template_injective in H.
    destruct (strip_tag_cases p1) as [[E1 H1] | [E1 H1]],
             (strip_tag_cases p2) as [[E2 H2] | [E2 H2]].
    + left. rewrite H1, H2. now rewrite H.
    + right; left. split; [|exact E2]. rewrite H1 at 1. now rewrite H, H2.
    + right; right. split; [|exact E1]. rewrite H2 at 1. now rewrite <- H, H1.
    + left. now rewrite <- H1, <- H2.
  - intros [-> | [[-> E] | [-> E]]]; [reflexivity | |];
      now rewrite strip_tag_hit, (strip_tag_miss _ E).
Qed.

(** X3. The filter [/.*/] of both registrations lets every path through,
    the empty one and those holding line breaks included: it matches at
    position 0, takes the code units before the first line terminator
    (line feed, carriage return, U+2028 or U+2029) and stops there. *)
Theorem filter_accepts_every_path (s : Pattern.input) :
  Pattern.test any_path s = true
  /\ exists line rest : Pattern.input,
       s = (line ++ rest)%list
       /\ Pattern.exec any_path s = Some ([], rest)
       /\ Forall (fun u => Pattern.line_terminator u = false) line
       /\ (rest = []
           \/ exists u r,
                rest = u :: r /\ Pattern.line_terminator u = true).
Proof.
  destruct (any_path_exec s) as (rest0 & Hexec & Hm0).
  split; [unfold Pattern.test; now rewrite Hexec|].
  destruct (any_path_match_here s 0) as (line & rest & Hs & Hm & Hline & Hrest).
  exists line, rest. repeat split; try assumption.
  rewrite Hexec. rewrite Hm in Hm0. now injection Hm0 as ->.
Qed.
